(** * The root-key authorization guard of the API

    A shallow embedding of [apps/api/src/pkg/auth/root_key.ts]: the single
    exported function [rootKeyAuth], the JavaScript string primitives it
    relies on, and the interfaces of the collaborators it imports. *)

From stdpp Require Import strings list.

(** ** JavaScript strings

    The guard computes its credential with
    [header?.replace("Bearer ", "")] and tests it with [!authorization].
    Both are built-ins; they are transcribed here from their ECMAScript
    definitions.  A string is a sequence of code units, [string]. *)

Module JsString.

(** [isPrefixOf p s]: the code units of [p] are the first ones of [s]. *)
Fixpoint isPrefixOf (p s : string) : bool :=
  match p, s with
  | EmptyString, _ => true
  | String _ _, EmptyString => false
  | String a p', String b s' =>
      if decide (a = b) then isPrefixOf p' s' else false
  end.

(** [StringIndexOf s searchValue]: the smallest position of [s] at which
    [searchValue] occurs, searching from position 0. *)
Fixpoint StringIndexOf (s searchValue : string) : option nat :=
  if isPrefixOf searchValue s then Some 0
  else match s with
       | EmptyString => None
       | String _ s' => S <$> StringIndexOf s' searchValue
       end.

(** [take n s] and [drop n s]: the code units before, and from, position
    [n]. *)
Fixpoint take (n : nat) (s : string) : string :=
  match n, s with
  | S n', String a s' => String a (take n' s')
  | _, _ => EmptyString
  end.

Fixpoint drop (n : nat) (s : string) : string :=
  match n, s with
  | S n', String _ s' => drop n' s'
  | _, _ => s
  end.

(** [String.prototype.replace] with a string pattern: only the first
    occurrence is replaced.  The replacement is taken literally, which is
    what the built-in does for a replacement without dollar patterns,
    such as the empty one the guard passes. *)
Definition replace (s searchValue replaceValue : string) : string :=
  match StringIndexOf s searchValue with
  | None => s
  | Some pos =>
      let preceding := take pos s in
      let following := drop (pos + String.length searchValue) s in
      preceding +:+ replaceValue +:+ following
  end.

(** [ToBoolean] on a value of type [string | undefined]: [undefined] and
    the empty string are falsy, every other string is truthy. *)
Definition ToBoolean (v : option string) : bool :=
  match v with
  | None => false
  | Some EmptyString => false
  | Some (String _ _) => true
  end.

End JsString.

(** ** The collaborators the guard imports *)

(** The header collection of a request, as the [Headers] object that
    [c.req.header] reads: names are matched without regard to the case of
    ASCII letters, values come stripped of leading and trailing HTTP
    whitespace, and the values of a name that occurs several times are
    joined with a comma and a space. *)
Module Headers.

(** HTTP whitespace: tab (9), line feed (10), carriage return (13) and
    space (32). *)
Definition isHttpWhitespace (a : Ascii.ascii) : bool :=
  bool_decide (Ascii.nat_of_ascii a ∈ [9; 10; 13; 32]).

Fixpoint stripLeading (value : string) : string :=
  match value with
  | EmptyString => EmptyString
  | String a rest => if isHttpWhitespace a then stripLeading rest else value
  end.

Fixpoint stripTrailing (value : string) : string :=
  match value with
  | EmptyString => EmptyString
  | String a rest =>
      match stripTrailing rest with
      | EmptyString =>
          if isHttpWhitespace a then EmptyString else String a EmptyString
      | kept => String a kept
      end
  end.

Definition normalize (value : string) : string :=
  stripTrailing (stripLeading value).

(** The letters A to Z become a to z, every other byte stays. *)
Definition byteLowercaseAscii (a : Ascii.ascii) : Ascii.ascii :=
  let n := Ascii.nat_of_ascii a in
  if bool_decide (65 ≤ n ≤ 90) then Ascii.ascii_of_nat (n + 32) else a.

Fixpoint byteLowercase (name : string) : string :=
  match name with
  | EmptyString => EmptyString
  | String a rest => String (byteLowercaseAscii a) (byteLowercase rest)
  end.

(** [headers.get(name)] on the header lines [init] of a request, in the
    order in which they were received. *)
Definition get (init : list (string * string)) (name : string) : option string :=
  match filter (λ line, byteLowercase line.1 = byteLowercase name) init with
  | [] => None
  | first :: others =>
      Some (foldl (λ joined line, joined +:+ ", " +:+ normalize line.2)
                  (normalize first.2) others)
  end.

End Headers.

(** The request half of hono's [Context].  [raw_headers] are the header
    lines of the request; [method] and [path] stand for the rest of the
    request, none of which the guard reads. *)
Record HonoRequest := {
  method : string;
  path : string;
  raw_headers : list (string * string)
}.

Record Context := { req : HonoRequest }.

(** [c.req.header(name)]: the value of the header, [undefined] when the
    request does not carry it. *)
Definition header (r : HonoRequest) (name : string) : option string :=
  Headers.get (raw_headers r) name.

(** Modelled from the spec: [UnkeyApiError] of [../errors], a tagged error
    with a machine-readable [code] and a human-readable [message]. *)
Record UnkeyApiError := { code : string; message : string }.

(** Modelled from the spec: the interface of [keyService] of [../global].
    [verifyKey] answers with a result object that holds either an [error]
    or a [value]; the value has the two booleans the guard inspects and
    further fields, of a type [Extra] the guard knows nothing about.  The
    promise [verifyKey] returns is fulfilled with such an object, or is
    rejected with a raw error of the service's own (a transport error, an
    unexpected exception), which is not an [UnkeyApiError]. *)
Record ServiceError := { errorName : string; errorMessage : string }.

Record RawError := { rawName : string; rawMessage : string }.

Inductive Settled (A : Type) : Type :=
| Fulfilled (a : A)
| Rejected (reason : RawError).
Arguments Fulfilled {A} a.
Arguments Rejected {A} reason.

Record VerifyKeyResult (Extra : Type) := {
  valid : bool;
  isRootKey : bool;
  passThrough : Extra
}.
Arguments valid {Extra} _.
Arguments isRootKey {Extra} _.
Arguments passThrough {Extra} _.

Record VerifyKeyRequest := { key : string }.

Inductive Result (V E : Type) : Type :=
| Ok (value : V)
| Err (error : E).
Arguments Ok {V E} value.
Arguments Err {V E} error.

(** ** What an invocation leaves behind

    Every [if] of the guard and its one [await] are recorded, in the order
    in which they are executed. *)
Inductive Guard :=
| If_not_authorization   (* if (!authorization)         *)
| If_error               (* if (rootKey.error)          *)
| If_not_valid           (* if (!rootKey.value.valid)   *)
| If_not_isRootKey.      (* if (!rootKey.value.isRootKey) *)

Inductive Event :=
| Evaluated (g : Guard)
| Called (c : Context) (r : VerifyKeyRequest).

(** The calls to the verification service in a trace, oldest first. *)
Definition verifyKey_calls (t : list Event) : list (Context * VerifyKeyRequest) :=
  omap (λ ev, match ev with
              | Called c r => Some (c, r)
              | Evaluated _ => None
              end) t.

(** The guards evaluated in a trace, oldest first. *)
Definition evaluated_guards (t : list Event) : list Guard :=
  omap (λ ev, match ev with
              | Evaluated g => Some g
              | Called _ _ => None
              end) t.

(** How a function body ends: with [return], with a [throw] of its own,
    or with the reason of a rejected [await] that nothing catches. *)
Inductive Completion (A : Type) : Type :=
| Return (a : A)
| Throw (e : UnkeyApiError)
| Uncaught (reason : RawError).
Arguments Return {A} a.
Arguments Throw {A} e.
Arguments Uncaught {A} reason.

Section Guard.

(** The opaque part of a verification result. *)
Variable Extra : Type.

(** The verification service is external and has a state of its own:
    [verifyKey c r s] is its answer in state [s] and the state it is in
    afterwards. *)
Variable ServiceState : Type.
Variable verifyKey :
  Context → VerifyKeyRequest → ServiceState →
  Settled (Result (VerifyKeyResult Extra) ServiceError) * ServiceState.

Record World := { service : ServiceState; trace : list Event }.

Definition record (ev : Event) (w : World) : World :=
  {| service := service w; trace := trace w ++ [ev] |}.

(** Computations that read and change the world and may throw. *)
Definition M (A : Type) : Type := World → Completion A * World.

Definition ret {A : Type} (a : A) : M A := λ w, (Return a, w).

Definition throw {A : Type} (e : UnkeyApiError) : M A :=
  λ w, (Throw e, w).

(** Sequencing: a [throw] or a rejection in [m] ends the whole
    computation; there is no [try] in the guard. *)
Definition bind {A B : Type} (m : M A) (k : A → M B) : M B :=
  λ w, match m w with
       | (Return a, w') => k a w'
       | (Throw e, w') => (Throw e, w')
       | (Uncaught reason, w') => (Uncaught reason, w')
       end.

Notation "'let!' x := m 'in' k" := (bind m (λ x, k))
  (at level 10, x name, m at level 200, k at level 200,
   format "'[v' 'let!'  x  :=  m  'in' '/' k ']'").

(** The condition of an [if]: its value, with the evaluation recorded. *)
Definition test (g : Guard) (b : bool) : M bool :=
  λ w, (Return b, record (Evaluated g) w).

(** [await keyService.verifyKey(c, r)]: the value the promise is
    fulfilled with, or its rejection, thrown at the [await]. *)
Definition keyService_verifyKey (c : Context) (r : VerifyKeyRequest)
  : M (Result (VerifyKeyResult Extra) ServiceError) :=
  λ w, let '(settled, s') := verifyKey c r (service w) in
       (match settled with
        | Fulfilled res => Return res
        | Rejected reason => Uncaught reason
        end,
        record (Called c r) {| service := s'; trace := trace w |}).

(** [c.req.header("authorization")?.replace("Bearer ", "")] *)
Definition authorization (c : Context) : option string :=
  (λ h, JsString.replace h "Bearer " "") <$> header (req c) "authorization".

(** The guard.  Past [if (!authorization) throw], [authorization] is a
    truthy string: neither [undefined] nor empty. *)
Definition rootKeyAuth (c : Context) : M (VerifyKeyResult Extra) :=
  let! missing := test If_not_authorization
                       (negb (JsString.ToBoolean (authorization c))) in
  match missing, authorization c with
  | true, _ | _, None =>
      throw {| code := "UNAUTHORIZED"; message := "key required" |}
  | false, Some authorization =>
      let! rootKey := keyService_verifyKey c {| key := authorization |} in
      let! failed := test If_error
                          (match rootKey with Err _ => true | Ok _ => false end) in
      match rootKey with
      | Err error =>
          throw {| code := "INTERNAL_SERVER_ERROR";
                   message := errorMessage error |}
      | Ok value =>
          let! invalid := test If_not_valid (negb (valid value)) in
          if invalid
          then throw {| code := "UNAUTHORIZED";
                        message := "the root key is not valid" |}
          else
            let! notRoot := test If_not_isRootKey (negb (isRootKey value)) in
            if notRoot
            then throw {| code := "UNAUTHORIZED";
                          message := "root key required" |}
            else ret value
      end
  end.

End Guard.

Arguments World ServiceState : clear implicits.
Arguments service {ServiceState} _.
Arguments trace {ServiceState} _.
Arguments record {ServiceState} ev w.
Arguments M ServiceState A : clear implicits.
Arguments authorization c : simpl never.
Arguments rootKeyAuth {Extra ServiceState} verifyKey c _.

(** ** Notions used in the statements *)

(** [s] contains [pat]; and [pat] occurs in [s] between [pre] and [post],
    with no occurrence starting further to the left. *)
Definition contains (pat s : string) : Prop :=
  ∃ pre post, s = pre +:+ pat +:+ post.

Definition first_occurrence (pat s pre post : string) : Prop :=
  s = pre +:+ pat +:+ post ∧
  ∀ pre' post', s = pre' +:+ pat +:+ post' →
                String.length pre ≤ String.length pre'.

(** The calls an invocation may add to the trace: none when the credential
    is falsy, one with the credential otherwise. *)
Definition expected_calls (c : Context) : list (Context * VerifyKeyRequest) :=
  match authorization c with
  | Some k => if decide (k = "") then [] else [(c, {| key := k |})]
  | None => []
  end.

(** ** A service and requests to run the guard on *)

Module Demo.

(** A service that knows four keys, fails to answer on a fifth and counts
    the calls it serves. *)
Definition verifyKey (c : Context) (r : VerifyKeyRequest) (served : nat)
  : Settled (Result (VerifyKeyResult string) ServiceError) * nat :=
  (if decide (key r = "abc123") then
     Fulfilled (Ok {| valid := true; isRootKey := true; passThrough := "ws_1" |})
   else if decide (key r = "user-key") then
     Fulfilled (Ok {| valid := true; isRootKey := false; passThrough := "ws_2" |})
   else if decide (key r = "bad") then
     Fulfilled (Ok {| valid := false; isRootKey := false; passThrough := "" |})
   else if decide (key r = "revoked-root") then
     Fulfilled (Ok {| valid := false; isRootKey := true; passThrough := "ws_1" |})
   else if decide (key r = "unreachable") then
     Rejected {| rawName := "TypeError"; rawMessage := "fetch failed" |}
   else
     Fulfilled
       (Err {| errorName := "FetchError"; errorMessage := "connection refused" |}),
   S served).

Definition get (target : string) (hs : list (string * string)) : Context :=
  {| req := {| method := "GET"; path := target; raw_headers := hs |} |}.

Definition bearer (value : string) : Context :=
  get "/v1/apis.listKeys" [("authorization", value)].

Definition anonymous : Context :=
  get "/v1/apis.listKeys" [("content-type", "application/json")].

Definition fresh : World nat := {| service := 0; trace := [] |}.

End Demo.

Example replace_bearer_abc123 :
  JsString.replace "Bearer abc123" "Bearer " "" = "abc123".
Proof. reflexivity. Qed.

Example replace_inner_occurrence :
  JsString.replace "xBearer y" "Bearer " "" = "xy".
Proof. reflexivity. Qed.

Example replace_only_first :
  JsString.replace "Bearer Bearer k" "Bearer " "" = "Bearer k".
Proof. reflexivity. Qed.

Example replace_absent_pattern :
  JsString.replace "bearer k" "Bearer " "" = "bearer k".
Proof. reflexivity. Qed.

Example scenario_root_key :
  (rootKeyAuth Demo.verifyKey (Demo.bearer "Bearer abc123") Demo.fresh).1
  = Return {| valid := true; isRootKey := true; passThrough := "ws_1" |}.
Proof. reflexivity. Qed.

Example scenario_header_absent :
  rootKeyAuth Demo.verifyKey Demo.anonymous Demo.fresh
  = (Throw {| code := "UNAUTHORIZED"; message := "key required" |},
     {| service := 0; trace := [Evaluated If_not_authorization] |}).
Proof. reflexivity. Qed.

Example scenario_bad_key :
  (rootKeyAuth Demo.verifyKey (Demo.bearer "Bearer bad") Demo.fresh).1
  = Throw {| code := "UNAUTHORIZED"; message := "the root key is not valid" |}.
Proof. reflexivity. Qed.

Example scenario_user_key :
  (rootKeyAuth Demo.verifyKey (Demo.bearer "Bearer user-key") Demo.fresh).1
  = Throw {| code := "UNAUTHORIZED"; message := "root key required" |}.
Proof. reflexivity. Qed.

Example scenario_service_error :
  rootKeyAuth Demo.verifyKey (Demo.bearer "Bearer zzz") Demo.fresh
  = (Throw {| code := "INTERNAL_SERVER_ERROR"; message := "connection refused" |},
     {| service := 1;
        trace := [Evaluated If_not_authorization;
                  Called (Demo.bearer "Bearer zzz") {| key := "zzz" |};
                  Evaluated If_error] |}).
Proof. reflexivity. Qed.

(** ** Facts about the string primitives *)

Section StringFacts.

Implicit Types s p pat rep pre post : string.

#[local] Arguments String.append !s1 s2 : simpl nomatch.

Lemma append_empty_r s : s +:+ "" = s.
Proof. induction s as [|a s IH]; simpl; [done | by rewrite IH]. Qed.

Lemma append_assoc s1 s2 s3 : (s1 +:+ s2) +:+ s3 = s1 +:+ s2 +:+ s3.
Proof. induction s1 as [|a s1 IH]; simpl; [done | by rewrite IH]. Qed.

Lemma isPrefixOf_spec p s :
  JsString.isPrefixOf p s = true ↔ ∃ t, s = p +:+ t.
Proof.
  revert s; induction p as [|a p IH]; intros [|b s]; simpl.
  - split; eauto.
  - split; eauto.
  - split; [done | by intros [t ?]].
  - destruct (decide (a = b)) as [->|Hab].
    + rewrite IH. split; intros [t Ht]; exists t; congruence.
    + split; [done | intros [t Ht]; congruence].
Qed.

Lemma take_append pre s : JsString.take (String.length pre) (pre +:+ s) = pre.
Proof.
  induction pre as [|a pre IH]; simpl; [by destruct s | by rewrite IH].
Qed.

Lemma drop_append pre n s :
  JsString.drop (String.length pre + n) (pre +:+ s) = JsString.drop n s.
Proof. induction pre as [|a pre IH]; simpl; done. Qed.

Lemma drop_length p s : JsString.drop (String.length p) (p +:+ s) = s.
Proof.
  rewrite <- (Nat.add_0_r (String.length p)), drop_append. by destruct s.
Qed.

(** [StringIndexOf] finds an occurrence, and the leftmost one. *)
Lemma StringIndexOf_Some s pat i :
  JsString.StringIndexOf s pat = Some i →
  ∃ pre post, first_occurrence pat s pre post ∧ String.length pre = i.
Proof.
  revert i; induction s as [|a s IH]; intros i; simpl;
    destruct (JsString.isPrefixOf pat _) eqn:Hp; try done.
  - intros [= <-]. apply isPrefixOf_spec in Hp as [t Ht].
    exists "", t. repeat split; simpl; [done | lia].
  - intros [= <-]. apply isPrefixOf_spec in Hp as [t Ht].
    exists "", t. repeat split; simpl; [done | lia].
  - destruct (JsString.StringIndexOf s pat) as [j|] eqn:Hj; simpl; [|done].
    intros [= <-]. destruct (IH j eq_refl) as (pre & post & [Hs Hmin] & Hlen).
    exists (String a pre), post. repeat split; simpl.
    + by rewrite Hs.
    + intros [|b pre'] post' Heq; simpl in *.
      * assert (JsString.isPrefixOf pat (String a s) = true) as Hc
          by (apply isPrefixOf_spec; eauto).
        congruence.
      * injection Heq as _ Heq. apply Hmin in Heq. lia.
    + by rewrite Hlen.
Qed.

Lemma StringIndexOf_None s pat :
  JsString.StringIndexOf s pat = None → ¬ contains pat s.
Proof.
  induction s as [|a s IH]; simpl;
    destruct (JsString.isPrefixOf pat _) eqn:Hp; try done.
  - intros _ ([|b pre] & post & Heq); simpl in *; [|done].
    assert (JsString.isPrefixOf pat "" = true) as Hc
      by (apply isPrefixOf_spec; eauto).
    congruence.
  - destruct (JsString.StringIndexOf s pat) as [j|] eqn:Hj; simpl; [done|].
    intros _ ([|b pre] & post & Heq); simpl in *.
    + assert (JsString.isPrefixOf pat (String a s) = true) as Hc
        by (apply isPrefixOf_spec; eauto).
      congruence.
    + injection Heq as _ Heq. apply (IH eq_refl). by exists pre, post.
Qed.


Lemma first_occurrence_index pat s pre post :
  first_occurrence pat s pre post →
  JsString.StringIndexOf s pat = Some (String.length pre).
Proof.
  intros [Hs Hmin]. destruct (JsString.StringIndexOf s pat) as [i|] eqn:Hi.
  - apply StringIndexOf_Some in Hi as (pre0 & post0 & [Hs0 Hmin0] & <-).
    f_equal. apply Nat.le_antisymm; eauto.
  - apply StringIndexOf_None in Hi. destruct Hi. by exists pre, post.
Qed.

(** [replace] removes the leftmost occurrence and nothing else. *)
Lemma replace_first_occurrence pat rep s pre post :
  first_occurrence pat s pre post →
  JsString.replace s pat rep = pre +:+ rep +:+ post.
Proof.
  intros H. unfold JsString.replace.
  rewrite (first_occurrence_index _ _ _ _ H). destruct H as [-> _]. simpl.
  by rewrite take_append, drop_append, drop_length.
Qed.

Lemma replace_not_contains pat rep s :
  ¬ contains pat s → JsString.replace s pat rep = s.
Proof.
  intros Hn. unfold JsString.replace.
  destruct (JsString.StringIndexOf s pat) as [i|] eqn:Hi; [|done].
  apply StringIndexOf_Some in Hi as (pre & post & [Hs _] & _).
  destruct Hn. by exists pre, post.
Qed.

End StringFacts.

(** ** The guard, branch by branch *)

Section GuardFacts.

Variables Extra ServiceState : Type.
Variable verifyKey :
  Context → VerifyKeyRequest → ServiceState →
  Settled (Result (VerifyKeyResult Extra) ServiceError) * ServiceState.

Implicit Types (c : Context) (w : World ServiceState) (k h : string).
Implicit Types (v : VerifyKeyResult Extra) (e : ServiceError).

Lemma ToBoolean_Some k : JsString.ToBoolean (Some k) = true ↔ k ≠ "".
Proof. destruct k; simpl; split; done. Qed.

Lemma authorization_absent c :
  header (req c) "authorization" = None → authorization c = None.
Proof. unfold authorization. by intros ->. Qed.

Lemma authorization_present c h :
  header (req c) "authorization" = Some h →
  authorization c = Some (JsString.replace h "Bearer " "").
Proof. unfold authorization. by intros ->. Qed.

(** A falsy credential: the guard throws at its first [if]. *)
Lemma rootKeyAuth_falsy c w :
  JsString.ToBoolean (authorization c) = false →
  rootKeyAuth verifyKey c w
  = (Throw {| code := "UNAUTHORIZED"; message := "key required" |},
     record (Evaluated If_not_authorization) w).
Proof.
  intros Hf. unfold rootKeyAuth, bind, test. rewrite Hf. simpl.
  by destruct (authorization c).
Qed.

(** A truthy credential: the guard calls the service with it and decides
    on the answer; a rejection ends the invocation at the [await]. *)
Lemma rootKeyAuth_truthy c w k :
  authorization c = Some k → k ≠ "" →
  rootKeyAuth verifyKey c w
  = let call := verifyKey c {| key := k |} (service w) in
    let seen ifs :=
      {| service := call.2;
         trace := trace w ++ [Evaluated If_not_authorization;
                              Called c {| key := k |};
                              Evaluated If_error] ++ ifs |} in
    match call.1 with
    | Rejected reason =>
        (Uncaught reason,
         {| service := call.2;
            trace := trace w ++ [Evaluated If_not_authorization;
                                 Called c {| key := k |}] |})
    | Fulfilled (Err e) =>
        (Throw {| code := "INTERNAL_SERVER_ERROR"; message := errorMessage e |},
         seen [])
    | Fulfilled (Ok v) =>
        if valid v then
          if isRootKey v then
            (Return v, seen [Evaluated If_not_valid; Evaluated If_not_isRootKey])
          else
            (Throw {| code := "UNAUTHORIZED"; message := "root key required" |},
             seen [Evaluated If_not_valid; Evaluated If_not_isRootKey])
        else
          (Throw {| code := "UNAUTHORIZED";
                    message := "the root key is not valid" |},
           seen [Evaluated If_not_valid])
    end.
Proof.
  intros Ha Hk. apply ToBoolean_Some in Hk.
  unfold rootKeyAuth, bind, test, keyService_verifyKey, record, throw, ret.
  rewrite Ha, Hk. simpl.
  destruct (verifyKey c {| key := k |} (service w)) as [[[v|e]|reason] s'];
    simpl.
  - destruct (valid v), (isRootKey v); simpl;
      by rewrite <- !(assoc_L (++)).
  - by rewrite <- !(assoc_L (++)).
  - by rewrite <- !(assoc_L (++)).
Qed.

Lemma verifyKey_calls_app (t1 t2 : list Event) :
  verifyKey_calls (t1 ++ t2) = verifyKey_calls t1 ++ verifyKey_calls t2.
Proof. apply omap_app. Qed.

Lemma verifyKey_calls_Evaluated g w :
  verifyKey_calls (trace (record (Evaluated g) w)) = verifyKey_calls (trace w).
Proof.
  unfold verifyKey_calls. simpl. rewrite omap_app. simpl.
  by rewrite (right_id_L [] (++)).
Qed.

Lemma expected_calls_falsy c :
  JsString.ToBoolean (authorization c) = false → expected_calls c = [].
Proof.
  unfold expected_calls. destruct (authorization c) as [[|a k]|]; done.
Qed.

Lemma expected_calls_truthy c k :
  authorization c = Some k → k ≠ "" →
  expected_calls c = [(c, {| key := k |})].
Proof.
  unfold expected_calls. intros -> Hk. by rewrite decide_False.
Qed.

(** The calls of an invocation, whatever the request and the service. *)
Lemma rootKeyAuth_verifyKey_calls c w :
  verifyKey_calls (trace (rootKeyAuth verifyKey c w).2)
  = verifyKey_calls (trace w) ++ expected_calls c.
Proof.
  destruct (JsString.ToBoolean (authorization c)) eqn:Hb.
  - destruct (authorization c) as [k|] eqn:Ha; [|done].
    apply ToBoolean_Some in Hb.
    rewrite (rootKeyAuth_truthy c w k Ha Hb), (expected_calls_truthy c k Ha Hb).
    simpl.
    destruct (verifyKey c {| key := k |} (service w)).1 as [[v|e]|reason];
      [destruct (valid v), (isRootKey v)| |]; simpl;
      by rewrite verifyKey_calls_app.
  - rewrite (rootKeyAuth_falsy c w Hb), (expected_calls_falsy c Hb). simpl.
    by rewrite verifyKey_calls_app.
Qed.

End GuardFacts.

(** ** The properties of the guard *)

Section GuardProperties.

Variables Extra ServiceState : Type.
Variable verifyKey :
  Context → VerifyKeyRequest → ServiceState →
  Settled (Result (VerifyKeyResult Extra) ServiceError) * ServiceState.

Implicit Types (c : Context) (w : World ServiceState) (k h : string).
Implicit Types (v : VerifyKeyResult Extra) (e : ServiceError).

(** C1.  A request without an authorization header: the guard throws
    UNAUTHORIZED, "key required"; the invocation adds no call to the
    verification service and leaves the service in the state it was in. *)
Theorem rootKeyAuth_header_absent c w :
  header (req c) "authorization" = None →
  (rootKeyAuth verifyKey c w).1
  = Throw {| code := "UNAUTHORIZED"; message := "key required" |} ∧
  verifyKey_calls (trace (rootKeyAuth verifyKey c w).2)
  = verifyKey_calls (trace w) ∧
  service (rootKeyAuth verifyKey c w).2 = service w.
Proof.
  intros Hh. apply authorization_absent in Hh.
  rewrite rootKeyAuth_falsy by (by rewrite Hh). cbn [fst snd].
  by rewrite verifyKey_calls_Evaluated.
Qed.

(** C2, as the code has it.  A request whose authorization header is
    present but whose value is empty once the first "Bearer " is removed:
    the guard throws UNAUTHORIZED, "key required", exactly as for an absent
    header; the verification service is not called. *)
Theorem rootKeyAuth_empty_credential c h w :
  header (req c) "authorization" = Some h →
  JsString.replace h "Bearer " "" = "" →
  (rootKeyAuth verifyKey c w).1
  = Throw {| code := "UNAUTHORIZED"; message := "key required" |} ∧
  verifyKey_calls (trace (rootKeyAuth verifyKey c w).2)
  = verifyKey_calls (trace w) ∧
  service (rootKeyAuth verifyKey c w).2 = service w.
Proof.
  intros Hh He. apply authorization_present in Hh. rewrite He in Hh.
  rewrite rootKeyAuth_falsy by (by rewrite Hh). cbn [fst snd].
  by rewrite verifyKey_calls_Evaluated.
Qed.

(** C3.  A request with a non-empty credential [k] to which the service
    answers with an error [e]: the guard throws INTERNAL_SERVER_ERROR with
    the message of [e], unchanged.  The events of the invocation are the
    first [if], the call and the [if] on the error: neither
    [If_not_valid] nor [If_not_isRootKey] is evaluated. *)
Theorem rootKeyAuth_service_error c w k e s' :
  authorization c = Some k → k ≠ "" →
  verifyKey c {| key := k |} (service w) = (Fulfilled (Err e), s') →
  rootKeyAuth verifyKey c w
  = (Throw {| code := "INTERNAL_SERVER_ERROR"; message := errorMessage e |},
     {| service := s';
        trace := trace w ++ [Evaluated If_not_authorization;
                             Called c {| key := k |};
                             Evaluated If_error] |}) ∧
  (∀ t, trace (rootKeyAuth verifyKey c w).2 = trace w ++ t →
        (Evaluated If_not_valid ∉ t) ∧ (Evaluated If_not_isRootKey ∉ t)).
Proof.
  intros Ha Hk Hcall. rewrite (rootKeyAuth_truthy _ _ verifyKey c w k Ha Hk).
  rewrite Hcall. simpl. split; [done|].
  intros t Ht. apply (inj (app (trace w))) in Ht as <-.
  rewrite !elem_of_cons, !elem_of_nil.
  split; intros [?|[?|[?|[]]]]; discriminate.
Qed.

(** C4.  The service answers with a value whose [valid] is false: the
    guard throws UNAUTHORIZED, "the root key is not valid", whatever
    [isRootKey] is. *)
Theorem rootKeyAuth_not_valid c w k v s' :
  authorization c = Some k → k ≠ "" →
  verifyKey c {| key := k |} (service w) = (Fulfilled (Ok v), s') →
  valid v = false →
  (rootKeyAuth verifyKey c w).1
  = Throw {| code := "UNAUTHORIZED"; message := "the root key is not valid" |}.
Proof.
  intros Ha Hk Hcall Hv. rewrite (rootKeyAuth_truthy _ _ verifyKey c w k Ha Hk).
  rewrite Hcall. simpl. by rewrite Hv.
Qed.

(** C5.  The service answers with a value that is valid but not a root
    key: the guard throws UNAUTHORIZED, "root key required", which is not
    the message of the invalid key. *)
Theorem rootKeyAuth_not_root c w k v s' :
  authorization c = Some k → k ≠ "" →
  verifyKey c {| key := k |} (service w) = (Fulfilled (Ok v), s') →
  valid v = true → isRootKey v = false →
  (rootKeyAuth verifyKey c w).1
  = Throw {| code := "UNAUTHORIZED"; message := "root key required" |} ∧
  "root key required" ≠ "the root key is not valid".
Proof.
  intros Ha Hk Hcall Hv Hr. rewrite (rootKeyAuth_truthy _ _ verifyKey c w k Ha Hk).
  rewrite Hcall. simpl. by rewrite Hv, Hr.
Qed.

(** C6.  The service answers with a value that is valid and a root key:
    the guard returns that very value, with the fields it does not read. *)
Theorem rootKeyAuth_root_key c w k v s' :
  authorization c = Some k → k ≠ "" →
  verifyKey c {| key := k |} (service w) = (Fulfilled (Ok v), s') →
  valid v = true → isRootKey v = true →
  (rootKeyAuth verifyKey c w).1 = Return v.
Proof.
  intros Ha Hk Hcall Hv Hr. rewrite (rootKeyAuth_truthy _ _ verifyKey c w k Ha Hk).
  rewrite Hcall. simpl. by rewrite Hv, Hr.
Qed.

(** C7, as the code has it.  An invocation calls the verification service
    at most once: not at all when the header is absent or the credential
    is empty, and once, with the credential, otherwise. *)
Theorem rootKeyAuth_calls_at_most_once c w :
  verifyKey_calls (trace (rootKeyAuth verifyKey c w).2)
  = verifyKey_calls (trace w) ++ expected_calls c ∧
  length (expected_calls c) ≤ 1 ∧
  (expected_calls c = [] ↔ JsString.ToBoolean (authorization c) = false).
Proof.
  split; [apply rootKeyAuth_verifyKey_calls|].
  unfold expected_calls. destruct (authorization c) as [[|a k]|]; simpl.
  - split; [lia | done].
  - split; [lia | done].
  - split; [lia | done].
Qed.

(** C8.  Two invocations, on requests with the same authorization header
    and in service states in which the service gives the same answer to
    the credential of that header, end the same way: the rest of the
    requests, the traces and the service states play no part. *)
Theorem rootKeyAuth_deterministic c1 c2 w1 w2 :
  header (req c1) "authorization" = header (req c2) "authorization" →
  (∀ k, authorization c1 = Some k →
        (verifyKey c1 {| key := k |} (service w1)).1
        = (verifyKey c2 {| key := k |} (service w2)).1) →
  (rootKeyAuth verifyKey c1 w1).1 = (rootKeyAuth verifyKey c2 w2).1.
Proof.
  intros Hh Hsame.
  assert (authorization c2 = authorization c1) as Ha
    by (unfold authorization; by rewrite Hh).
  destruct (JsString.ToBoolean (authorization c1)) eqn:Hb.
  - destruct (authorization c1) as [k|] eqn:H1; [|done].
    apply ToBoolean_Some in Hb. specialize (Hsame k eq_refl).
    rewrite (rootKeyAuth_truthy _ _ verifyKey c1 w1 k H1 Hb).
    rewrite (rootKeyAuth_truthy _ _ verifyKey c2 w2 k Ha Hb).
    simpl. rewrite Hsame.
    destruct (verifyKey c2 {| key := k |} (service w2)).1 as [[v|e]|reason];
      [destruct (valid v), (isRootKey v)| |]; done.
  - rewrite !rootKeyAuth_falsy by (by rewrite ?Ha). done.
Qed.

(** C9, as the code has it.  An invocation ends in one of three ways.  It
    throws one [UnkeyApiError] whose code is UNAUTHORIZED or
    INTERNAL_SERVER_ERROR; or it returns a verification result that is valid
    and a root key; or, when the call to the service is rejected, and only
    then, the reason of the rejection leaves the guard as it came, for
    nothing in the guard catches it.  It never returns a result that is not
    valid or not a root key. *)
Theorem rootKeyAuth_outcome c w :
  match (rootKeyAuth verifyKey c w).1 with
  | Throw err =>
      code err = "UNAUTHORIZED" ∨ code err = "INTERNAL_SERVER_ERROR"
  | Return v =>
      valid v = true ∧ isRootKey v = true
  | Uncaught reason =>
      ∃ k, authorization c = Some k ∧ k ≠ "" ∧
           (verifyKey c {| key := k |} (service w)).1 = Rejected reason
  end ∧
  (∀ k reason,
     authorization c = Some k → k ≠ "" →
     (verifyKey c {| key := k |} (service w)).1 = Rejected reason →
     (rootKeyAuth verifyKey c w).1 = Uncaught reason).
Proof.
  split.
  - destruct (JsString.ToBoolean (authorization c)) eqn:Hb.
    + destruct (authorization c) as [k|] eqn:Ha; [|done].
      apply ToBoolean_Some in Hb.
      rewrite (rootKeyAuth_truthy _ _ verifyKey c w k Ha Hb). simpl.
      destruct (verifyKey c {| key := k |} (service w)).1
        as [[v|e]|reason] eqn:Hcall; simpl; [|by right|by exists k].
      destruct (valid v) eqn:Hv, (isRootKey v) eqn:Hr; simpl; auto.
    + rewrite rootKeyAuth_falsy by done. simpl. by left.
  - intros k reason Ha Hk Hcall.
    rewrite (rootKeyAuth_truthy _ _ verifyKey c w k Ha Hk). simpl.
    by rewrite Hcall.
Qed.


End GuardProperties.

(** ** The properties at work, on the service and the requests of [Demo] *)

Lemma rootKeyAuth_header_absent_witness :
  header (req Demo.anonymous) "authorization" = None ∧
  (rootKeyAuth Demo.verifyKey Demo.anonymous Demo.fresh).1
  = Throw {| code := "UNAUTHORIZED"; message := "key required" |} ∧
  verifyKey_calls (trace (rootKeyAuth Demo.verifyKey Demo.anonymous Demo.fresh).2)
  = verifyKey_calls (trace Demo.fresh) ∧
  service (rootKeyAuth Demo.verifyKey Demo.anonymous Demo.fresh).2
  = service Demo.fresh.
Proof.
  split; [reflexivity|].
  apply (rootKeyAuth_header_absent _ _ Demo.verifyKey Demo.anonymous Demo.fresh).
  reflexivity.
Defined.

(** An authorization header that is present and empty: its credential is
    empty, the guard answers "key required" and the service, which has
    served no call, is not asked. *)
Lemma empty_header_is_rejected_locally :
  header (req (Demo.bearer "")) "authorization" = Some "" ∧
  JsString.replace "" "Bearer " "" = "" ∧
  rootKeyAuth Demo.verifyKey (Demo.bearer "") Demo.fresh
  = (Throw {| code := "UNAUTHORIZED"; message := "key required" |},
     {| service := 0; trace := [Evaluated If_not_authorization] |}) ∧
  (Demo.bearer "", {| key := "" |})
  ∉ verifyKey_calls
      (trace (rootKeyAuth Demo.verifyKey (Demo.bearer "") Demo.fresh).2).
Proof.
  repeat split. vm_compute. apply not_elem_of_nil.
Qed.

Lemma rootKeyAuth_empty_credential_witness :
  header (req (Demo.bearer "")) "authorization" = Some "" ∧
  JsString.replace "" "Bearer " "" = "" ∧
  (rootKeyAuth Demo.verifyKey (Demo.bearer "") Demo.fresh).1
  = Throw {| code := "UNAUTHORIZED"; message := "key required" |} ∧
  verifyKey_calls
    (trace (rootKeyAuth Demo.verifyKey (Demo.bearer "") Demo.fresh).2)
  = verifyKey_calls (trace Demo.fresh) ∧
  service (rootKeyAuth Demo.verifyKey (Demo.bearer "") Demo.fresh).2
  = service Demo.fresh.
Proof.
  split; [reflexivity|]. split; [reflexivity|].
  apply (rootKeyAuth_empty_credential _ _ Demo.verifyKey
           (Demo.bearer "") "" Demo.fresh); reflexivity.
Defined.

Lemma rootKeyAuth_service_error_witness :
  rootKeyAuth Demo.verifyKey (Demo.bearer "Bearer zzz") Demo.fresh
  = (Throw {| code := "INTERNAL_SERVER_ERROR"; message := "connection refused" |},
     {| service := 1;
        trace := [Evaluated If_not_authorization;
                  Called (Demo.bearer "Bearer zzz") {| key := "zzz" |};
                  Evaluated If_error] |}) ∧
  (∀ t, trace (rootKeyAuth Demo.verifyKey (Demo.bearer "Bearer zzz") Demo.fresh).2
        = [] ++ t →
        (Evaluated If_not_valid ∉ t) ∧ (Evaluated If_not_isRootKey ∉ t)).
Proof.
  apply (rootKeyAuth_service_error _ _ Demo.verifyKey
           (Demo.bearer "Bearer zzz") Demo.fresh "zzz"
           {| errorName := "FetchError"; errorMessage := "connection refused" |} 1).
  - reflexivity.
  - discriminate.
  - reflexivity.
Defined.

Lemma rootKeyAuth_not_valid_witness :
  (rootKeyAuth Demo.verifyKey (Demo.bearer "Bearer revoked-root") Demo.fresh).1
  = Throw {| code := "UNAUTHORIZED"; message := "the root key is not valid" |}.
Proof.
  apply (rootKeyAuth_not_valid _ _ Demo.verifyKey
           (Demo.bearer "Bearer revoked-root") Demo.fresh "revoked-root"
           {| valid := false; isRootKey := true; passThrough := "ws_1" |} 1).
  - reflexivity.
  - discriminate.
  - reflexivity.
  - reflexivity.
Defined.

Lemma rootKeyAuth_not_root_witness :
  (rootKeyAuth Demo.verifyKey (Demo.bearer "Bearer user-key") Demo.fresh).1
  = Throw {| code := "UNAUTHORIZED"; message := "root key required" |} ∧
  "root key required" ≠ "the root key is not valid".
Proof.
  apply (rootKeyAuth_not_root _ _ Demo.verifyKey
           (Demo.bearer "Bearer user-key") Demo.fresh "user-key"
           {| valid := true; isRootKey := false; passThrough := "ws_2" |} 1).
  - reflexivity.
  - discriminate.
  - reflexivity.
  - reflexivity.
  - reflexivity.
Defined.

Lemma rootKeyAuth_root_key_witness :
  (rootKeyAuth Demo.verifyKey (Demo.bearer "Bearer abc123") Demo.fresh).1
  = Return {| valid := true; isRootKey := true; passThrough := "ws_1" |}.
Proof.
  apply (rootKeyAuth_root_key _ _ Demo.verifyKey
           (Demo.bearer "Bearer abc123") Demo.fresh "abc123"
           {| valid := true; isRootKey := true; passThrough := "ws_1" |} 1).
  - reflexivity.
  - discriminate.
  - reflexivity.
  - reflexivity.
  - reflexivity.
Defined.

(** A request without the header: the invocation makes no call, not one. *)
Lemma header_absent_makes_no_call :
  length (verifyKey_calls
            (trace (rootKeyAuth Demo.verifyKey Demo.anonymous Demo.fresh).2)) ≠ 1.
Proof. vm_compute. discriminate. Qed.

Lemma rootKeyAuth_deterministic_witness :
  (rootKeyAuth Demo.verifyKey (Demo.bearer "Bearer user-key") Demo.fresh).1
  = (rootKeyAuth Demo.verifyKey
       (Demo.get "/v1/keys.deleteKey"
          [("x-request-id", "r_42"); ("authorization", "Bearer user-key")])
       {| service := 7; trace := [Evaluated If_not_authorization] |}).1.
Proof.
  apply (rootKeyAuth_deterministic _ _ Demo.verifyKey).
  - reflexivity.
  - intros k _. reflexivity.
Defined.

(** A call that the service rejects: the invocation ends with the raw
    error of the service, which is neither an [UnkeyApiError] thrown by the
    guard nor a returned result. *)
Lemma rejected_call_is_not_caught :
  (Demo.verifyKey (Demo.bearer "Bearer unreachable") {| key := "unreachable" |}
     (service Demo.fresh)).1
  = Rejected {| rawName := "TypeError"; rawMessage := "fetch failed" |} ∧
  (rootKeyAuth Demo.verifyKey (Demo.bearer "Bearer unreachable") Demo.fresh).1
  = Uncaught {| rawName := "TypeError"; rawMessage := "fetch failed" |} ∧
  ¬ (∃ err, (rootKeyAuth Demo.verifyKey
               (Demo.bearer "Bearer unreachable") Demo.fresh).1 = Throw err) ∧
  ¬ (∃ v, (rootKeyAuth Demo.verifyKey
             (Demo.bearer "Bearer unreachable") Demo.fresh).1 = Return v).
Proof.
  split; [reflexivity|]. split; [reflexivity|].
  split; intros [x Hx]; vm_compute in Hx; discriminate Hx.
Qed.

Lemma rootKeyAuth_outcome_witness :
  (rootKeyAuth Demo.verifyKey (Demo.bearer "Bearer unreachable") Demo.fresh).1
  = Uncaught {| rawName := "TypeError"; rawMessage := "fetch failed" |}.
Proof.
  apply (proj2 (rootKeyAuth_outcome _ _ Demo.verifyKey
                  (Demo.bearer "Bearer unreachable") Demo.fresh)
           "unreachable").
  - reflexivity.
  - discriminate.
  - reflexivity.
Defined.



Example credential_inner_occurrence :
  authorization (Demo.bearer "xBearer y") = Some "xy".
Proof. reflexivity. Qed.

Example credential_only_first_occurrence :
  authorization (Demo.bearer "Bearer Bearer k") = Some "Bearer k".
Proof. reflexivity. Qed.

Example credential_without_bearer :
  verifyKey_calls
    (trace (rootKeyAuth Demo.verifyKey (Demo.bearer "abc123") Demo.fresh).2)
  = [(Demo.bearer "abc123", {| key := "abc123" |})].
Proof. reflexivity. Qed.

(** ** Further properties of the guard *)

Section CredentialFacts.

Implicit Types s h pat pre post token : string.

#[local] Arguments String.append !s1 s2 : simpl nomatch.

Lemma append_eq_empty s1 s2 : s1 +:+ s2 = "" → s1 = "" ∧ s2 = "".
Proof. destruct s1; simpl; [done | discriminate]. Qed.

(** A pattern at the very start of a string is its leftmost occurrence. *)
Lemma first_occurrence_prefix pat s : first_occurrence pat (pat +:+ s) "" s.
Proof. split; [done | intros; simpl; lia]. Qed.

(** The headers whose credential is empty. *)
Lemma replace_Bearer_empty h :
  JsString.replace h "Bearer " "" = "" ↔ h = "" ∨ h = "Bearer ".
Proof.
  split; [|by intros [-> | ->]].
  intros He. destruct (JsString.StringIndexOf h "Bearer ") as [i|] eqn:Hi.
  - apply StringIndexOf_Some in Hi as (pre & post & Hfirst & _).
    rewrite (replace_first_occurrence _ "" _ _ _ Hfirst) in He.
    apply append_eq_empty in He as [-> He]. simpl in He. subst post.
    destruct Hfirst as [-> _]. by right.
  - left. unfold JsString.replace in He. by rewrite Hi in He.
Qed.

Lemma authorization_falsy c :
  JsString.ToBoolean (authorization c) = false ↔
  header (req c) "authorization" = None ∨
  header (req c) "authorization" = Some "" ∨
  header (req c) "authorization" = Some "Bearer ".
Proof.
  unfold authorization.
  destruct (header (req c) "authorization") as [h|]; simpl; [|by split; auto].
  split.
  - intros Hb. right.
    destruct (JsString.replace h "Bearer " "") eqn:He; [|done].
    apply replace_Bearer_empty in He as [-> | ->]; auto.
  - intros [?|[[= ->]|[= ->]]]; done.
Qed.

End CredentialFacts.

Section GuardExtras.

Variables Extra ServiceState : Type.
Variable verifyKey :
  Context → VerifyKeyRequest → ServiceState →
  Settled (Result (VerifyKeyResult Extra) ServiceError) * ServiceState.

Implicit Types (c : Context) (w : World ServiceState) (k h token m : string).
Implicit Types (v : VerifyKeyResult Extra) (e : ServiceError).

(** With a credential, the service ends in the state the call put it in. *)
Lemma rootKeyAuth_service_truthy c w k :
  authorization c = Some k → k ≠ "" →
  service (rootKeyAuth verifyKey c w).2
  = (verifyKey c {| key := k |} (service w)).2.
Proof.
  intros Ha Hk. rewrite (rootKeyAuth_truthy _ _ verifyKey c w k Ha Hk). simpl.
  destruct (verifyKey c {| key := k |} (service w)).1 as [[v|e]|reason];
    [destruct (valid v), (isRootKey v)| |]; done.
Qed.

(** X1.  What a client sends as "Bearer " followed by a token comes out as
    that token, whatever the token holds: nothing is trimmed, and a second
    "Bearer " inside the token stays.  A token that is not empty is the key
    of the one call to the service. *)
Theorem rootKeyAuth_bearer_round_trip c w token :
  header (req c) "authorization" = Some ("Bearer " +:+ token) →
  authorization c = Some token ∧
  (token ≠ "" →
   verifyKey_calls (trace (rootKeyAuth verifyKey c w).2)
   = verifyKey_calls (trace w) ++ [(c, {| key := token |})]).
Proof.
  intros Hh. apply authorization_present in Hh.
  rewrite (replace_first_occurrence _ "" _ _ _
             (first_occurrence_prefix "Bearer " token)) in Hh.
  split; [done|]. intros Hne.
  by rewrite rootKeyAuth_verifyKey_calls, (expected_calls_truthy c _ Hh Hne).
Qed.

(** X2.  The guard answers UNAUTHORIZED, "key required" for three kinds of
    request and no other: the header is absent, it is empty, or it is
    "Bearer " and nothing more. *)
Theorem rootKeyAuth_key_required_iff c w :
  (rootKeyAuth verifyKey c w).1
  = Throw {| code := "UNAUTHORIZED"; message := "key required" |}
  ↔ header (req c) "authorization" = None ∨
    header (req c) "authorization" = Some "" ∨
    header (req c) "authorization" = Some "Bearer ".
Proof.
  rewrite <- authorization_falsy.
  destruct (JsString.ToBoolean (authorization c)) eqn:Hb.
  - destruct (authorization c) as [k|] eqn:Ha; [|done].
    apply ToBoolean_Some in Hb.
    rewrite (rootKeyAuth_truthy _ _ verifyKey c w k Ha Hb). simpl.
    destruct (verifyKey c {| key := k |} (service w)).1 as [[v|e]|reason];
      [destruct (valid v), (isRootKey v)| |]; simpl; split; discriminate.
  - by rewrite rootKeyAuth_falsy.
Qed.

(** X3.  Whatever an invocation asks the service, it asks on behalf of the
    request it was given and with the credential of that request, which is
    never the empty string. *)
Theorem rootKeyAuth_calls_carry_credential c w t c' r :
  trace (rootKeyAuth verifyKey c w).2 = trace w ++ t →
  (c', r) ∈ verifyKey_calls t →
  c' = c ∧ key r ≠ "" ∧ authorization c = Some (key r).
Proof.
  intros Ht Hin.
  assert (verifyKey_calls t = expected_calls c) as Hcalls.
  { apply (inj (app (verifyKey_calls (trace w)))).
    by rewrite <- verifyKey_calls_app, <- Ht, rootKeyAuth_verifyKey_calls. }
  rewrite Hcalls in Hin. unfold expected_calls in Hin.
  destruct (authorization c) as [k|]; [|by apply elem_of_nil in Hin].
  destruct (decide (k = "")) as [|Hk]; [by apply elem_of_nil in Hin|].
  apply list_elem_of_singleton in Hin as [= -> ->]. done.
Qed.

(** X4.  The guard lets a request through only on the word of the
    service: when it returns [v], the credential is not empty and the
    service, asked about that credential in the state the guard found it
    in, answered with [v], valid and a root key; the service is left in the
    state that call put it in. *)
Theorem rootKeyAuth_return_sound c w v :
  (rootKeyAuth verifyKey c w).1 = Return v →
  ∃ k, authorization c = Some k ∧ k ≠ "" ∧
       (verifyKey c {| key := k |} (service w)).1 = Fulfilled (Ok v) ∧
       valid v = true ∧ isRootKey v = true ∧
       service (rootKeyAuth verifyKey c w).2
       = (verifyKey c {| key := k |} (service w)).2.
Proof.
  destruct (JsString.ToBoolean (authorization c)) eqn:Hb.
  - destruct (authorization c) as [k|] eqn:Ha; [|done].
    apply ToBoolean_Some in Hb.
    rewrite (rootKeyAuth_truthy _ _ verifyKey c w k Ha Hb). simpl.
    destruct (verifyKey c {| key := k |} (service w)).1
      as [[v'|e]|reason] eqn:Hcall; [|discriminate|discriminate].
    destruct (valid v') eqn:Hv, (isRootKey v') eqn:Hr; simpl; try discriminate.
    intros [= ->]. by exists k.
  - by rewrite rootKeyAuth_falsy.
Qed.

(** X5.  INTERNAL_SERVER_ERROR with message [m] is thrown when, and only
    when, the service was asked about a non-empty credential and answered
    with an error whose message is [m]. *)
Theorem rootKeyAuth_internal_error_iff c w m :
  (rootKeyAuth verifyKey c w).1
  = Throw {| code := "INTERNAL_SERVER_ERROR"; message := m |}
  ↔ ∃ k e, authorization c = Some k ∧ k ≠ "" ∧
           (verifyKey c {| key := k |} (service w)).1 = Fulfilled (Err e) ∧
           errorMessage e = m.
Proof.
  destruct (JsString.ToBoolean (authorization c)) eqn:Hb.
  - destruct (authorization c) as [k|] eqn:Ha; [|done].
    apply ToBoolean_Some in Hb.
    rewrite (rootKeyAuth_truthy _ _ verifyKey c w k Ha Hb). simpl.
    destruct (verifyKey c {| key := k |} (service w)).1
      as [[v|e]|reason] eqn:Hcall.
    + split.
      * destruct (valid v), (isRootKey v); discriminate.
      * intros (k' & e & Ha' & _ & He & _). congruence.
    + simpl. split.
      * intros [= <-]. by exists k, e.
      * intros (k' & e' & Ha' & _ & He & <-). congruence.
    + simpl. split; [discriminate|].
      intros (k' & e & Ha' & _ & He & _). congruence.
  - rewrite rootKeyAuth_falsy by done. simpl. split; [discriminate|].
    intros (k & e & Ha & Hk & _). apply ToBoolean_Some in Hk.
    rewrite Ha in Hb. congruence.
Qed.

(** X6.  UNAUTHORIZED, "the root key is not valid" is thrown when, and only
    when, the service was asked about a non-empty credential and answered
    with a value that is not valid. *)
Theorem rootKeyAuth_not_valid_iff c w :
  (rootKeyAuth verifyKey c w).1
  = Throw {| code := "UNAUTHORIZED"; message := "the root key is not valid" |}
  ↔ ∃ k v, authorization c = Some k ∧ k ≠ "" ∧
           (verifyKey c {| key := k |} (service w)).1 = Fulfilled (Ok v) ∧
           valid v = false.
Proof.
  destruct (JsString.ToBoolean (authorization c)) eqn:Hb.
  - destruct (authorization c) as [k|] eqn:Ha; [|done].
    apply ToBoolean_Some in Hb.
    rewrite (rootKeyAuth_truthy _ _ verifyKey c w k Ha Hb). simpl.
    destruct (verifyKey c {| key := k |} (service w)).1
      as [[v|e]|reason] eqn:Hcall.
    + destruct (valid v) eqn:Hv.
      * split.
        -- destruct (isRootKey v); discriminate.
        -- intros (k' & v' & Ha' & _ & Hc' & Hv'). congruence.
      * split; [|done]. intros _. by exists k, v.
    + simpl. split; [discriminate|].
      intros (k' & v & Ha' & _ & Hc' & _). congruence.
    + simpl. split; [discriminate|].
      intros (k' & v & Ha' & _ & Hc' & _). congruence.
  - rewrite rootKeyAuth_falsy by done. simpl. split; [discriminate|].
    intros (k & v & Ha & Hk & _). apply ToBoolean_Some in Hk.
    rewrite Ha in Hb. congruence.
Qed.

(** X7.  UNAUTHORIZED, "root key required" is thrown when, and only when,
    the service was asked about a non-empty credential and answered with a
    value that is valid but not a root key. *)
Theorem rootKeyAuth_not_root_iff c w :
  (rootKeyAuth verifyKey c w).1
  = Throw {| code := "UNAUTHORIZED"; message := "root key required" |}
  ↔ ∃ k v, authorization c = Some k ∧ k ≠ "" ∧
           (verifyKey c {| key := k |} (service w)).1 = Fulfilled (Ok v) ∧
           valid v = true ∧ isRootKey v = false.
Proof.
  destruct (JsString.ToBoolean (authorization c)) eqn:Hb.
  - destruct (authorization c) as [k|] eqn:Ha; [|done].
    apply ToBoolean_Some in Hb.
    rewrite (rootKeyAuth_truthy _ _ verifyKey c w k Ha Hb). simpl.
    destruct (verifyKey c {| key := k |} (service w)).1
      as [[v|e]|reason] eqn:Hcall.
    + destruct (valid v) eqn:Hv, (isRootKey v) eqn:Hr; simpl.
      * split; [discriminate|].
        intros (k' & v' & Ha' & _ & Hc' & _ & Hr'). congruence.
      * split; [|done]. intros _. by exists k, v.
      * split; [discriminate|].
        intros (k' & v' & Ha' & _ & Hc' & Hv' & _). congruence.
      * split; [discriminate|].
        intros (k' & v' & Ha' & _ & Hc' & Hv' & _). congruence.
    + simpl. split; [discriminate|].
      intros (k' & v & Ha' & _ & Hc' & _). congruence.
    + simpl. split; [discriminate|].
      intros (k' & v & Ha' & _ & Hc' & _). congruence.
  - rewrite rootKeyAuth_falsy by done. simpl. split; [discriminate|].
    intros (k & v & Ha & Hk & _). apply ToBoolean_Some in Hk.
    rewrite Ha in Hb. congruence.
Qed.

(** X8.  The events of an invocation follow the order of the source: the
    test of the credential, the call, the test of the error, of [valid], of
    [isRootKey].  An invocation goes through a first part of that list and
    never comes back: no test is made twice, and none before the one that
    precedes it. *)
Theorem rootKeyAuth_evaluation_order c w :
  ∃ t k, trace (rootKeyAuth verifyKey c w).2 = trace w ++ t ∧
         t ≠ [] ∧
         t `prefix_of` [Evaluated If_not_authorization;
                        Called c {| key := k |};
                        Evaluated If_error;
                        Evaluated If_not_valid;
                        Evaluated If_not_isRootKey].
Proof.
  destruct (JsString.ToBoolean (authorization c)) eqn:Hb.
  - destruct (authorization c) as [k|] eqn:Ha; [|done].
    apply ToBoolean_Some in Hb.
    rewrite (rootKeyAuth_truthy _ _ verifyKey c w k Ha Hb). simpl.
    destruct (verifyKey c {| key := k |} (service w)).1 as [[v|e]|reason];
      [destruct (valid v), (isRootKey v)| |]; simpl;
      eexists _, k; (split; [reflexivity|]); (split; [done|]); by eexists.
  - rewrite rootKeyAuth_falsy by done. simpl.
    eexists _, ""; (split; [reflexivity|]); (split; [done|]); by eexists.
Qed.

(** X9.  The guard keeps nothing from one invocation to the next: two
    invocations in a row, each on a request with a credential, ask the
    service twice, in that order, and the second question is put to the
    service in the state the first one left it in. *)
Theorem rootKeyAuth_no_cache c1 c2 w k1 k2 :
  authorization c1 = Some k1 → k1 ≠ "" →
  authorization c2 = Some k2 → k2 ≠ "" →
  verifyKey_calls
    (trace (rootKeyAuth verifyKey c2 (rootKeyAuth verifyKey c1 w).2).2)
  = verifyKey_calls (trace w) ++ [(c1, {| key := k1 |}); (c2, {| key := k2 |})] ∧
  service (rootKeyAuth verifyKey c2 (rootKeyAuth verifyKey c1 w).2).2
  = (verifyKey c2 {| key := k2 |}
       (verifyKey c1 {| key := k1 |} (service w)).2).2.
Proof.
  intros Ha1 Hk1 Ha2 Hk2. split.
  - rewrite !rootKeyAuth_verifyKey_calls.
    rewrite (expected_calls_truthy c1 k1 Ha1 Hk1).
    rewrite (expected_calls_truthy c2 k2 Ha2 Hk2).
    by rewrite <- (assoc_L (++)).
  - by rewrite (rootKeyAuth_service_truthy c2 _ k2 Ha2 Hk2),
      (rootKeyAuth_service_truthy c1 w k1 Ha1 Hk1).
Qed.

(** X10.  The guard does not insist on the Bearer scheme: a header that is
    the bare token, when the token does not itself contain "Bearer ", is
    treated as the header "Bearer " followed by that token is. *)
Theorem rootKeyAuth_scheme_optional c1 c2 w1 w2 token :
  header (req c1) "authorization" = Some token →
  header (req c2) "authorization" = Some ("Bearer " +:+ token) →
  ¬ contains "Bearer " token →
  (verifyKey c1 {| key := token |} (service w1)).1
  = (verifyKey c2 {| key := token |} (service w2)).1 →
  authorization c1 = authorization c2 ∧
  (rootKeyAuth verifyKey c1 w1).1 = (rootKeyAuth verifyKey c2 w2).1.
Proof.
  intros H1 H2 Hnot Hsame.
  apply authorization_present in H1, H2.
  rewrite (replace_not_contains _ "" _ Hnot) in H1.
  rewrite (replace_first_occurrence _ "" _ _ _
             (first_occurrence_prefix "Bearer " token)) in H2.
  change ("" +:+ "" +:+ token) with token in H2. split; [congruence|].
  destruct (decide (token = "")) as [->|Hne].
  - by rewrite !rootKeyAuth_falsy by (by rewrite ?H1, ?H2).
  - rewrite (rootKeyAuth_truthy _ _ verifyKey c1 w1 token H1 Hne).
    rewrite (rootKeyAuth_truthy _ _ verifyKey c2 w2 token H2 Hne).
    simpl. rewrite Hsame.
    destruct (verifyKey c2 {| key := token |} (service w2)).1 as [[v|e]|reason];
      [destruct (valid v), (isRootKey v)| |]; done.
Qed.

End GuardExtras.

Lemma rootKeyAuth_bearer_round_trip_witness :
  header (req (Demo.bearer "Bearer  Bearer user-key")) "authorization"
  = Some ("Bearer " +:+ " Bearer user-key") ∧
  authorization (Demo.bearer "Bearer  Bearer user-key")
  = Some " Bearer user-key" ∧
  (" Bearer user-key" ≠ "" →
   verifyKey_calls
     (trace (rootKeyAuth Demo.verifyKey
               (Demo.bearer "Bearer  Bearer user-key") Demo.fresh).2)
   = verifyKey_calls (trace Demo.fresh)
     ++ [(Demo.bearer "Bearer  Bearer user-key",
          {| key := " Bearer user-key" |})]).
Proof.
  split; [reflexivity|].
  apply (rootKeyAuth_bearer_round_trip _ _ Demo.verifyKey
           (Demo.bearer "Bearer  Bearer user-key") Demo.fresh
           " Bearer user-key").
  reflexivity.
Defined.

Lemma rootKeyAuth_calls_carry_credential_witness :
  Demo.bearer "Bearer abc123" = Demo.bearer "Bearer abc123" ∧
  key {| key := "abc123" |} ≠ "" ∧
  authorization (Demo.bearer "Bearer abc123")
  = Some (key {| key := "abc123" |}).
Proof.
  apply (rootKeyAuth_calls_carry_credential _ _ Demo.verifyKey
           (Demo.bearer "Bearer abc123") Demo.fresh
           [Evaluated If_not_authorization;
            Called (Demo.bearer "Bearer abc123") {| key := "abc123" |};
            Evaluated If_error;
            Evaluated If_not_valid;
            Evaluated If_not_isRootKey]).
  - reflexivity.
  - apply list_elem_of_here.
Defined.

Lemma rootKeyAuth_return_sound_witness :
  ∃ k, authorization (Demo.bearer "Bearer abc123") = Some k ∧ k ≠ "" ∧
       (Demo.verifyKey (Demo.bearer "Bearer abc123") {| key := k |}
          (service Demo.fresh)).1
       = Fulfilled
           (Ok {| valid := true; isRootKey := true; passThrough := "ws_1" |}) ∧
       valid {| valid := true; isRootKey := true; passThrough := "ws_1" |}
       = true ∧
       isRootKey {| valid := true; isRootKey := true; passThrough := "ws_1" |}
       = true ∧
       service (rootKeyAuth Demo.verifyKey
                  (Demo.bearer "Bearer abc123") Demo.fresh).2
       = (Demo.verifyKey (Demo.bearer "Bearer abc123") {| key := k |}
            (service Demo.fresh)).2.
Proof.
  apply (rootKeyAuth_return_sound _ _ Demo.verifyKey
           (Demo.bearer "Bearer abc123") Demo.fresh).
  reflexivity.
Defined.

Lemma rootKeyAuth_no_cache_witness :
  verifyKey_calls
    (trace (rootKeyAuth Demo.verifyKey (Demo.bearer "Bearer abc123")
              (rootKeyAuth Demo.verifyKey (Demo.bearer "Bearer abc123")
                 Demo.fresh).2).2)
  = verifyKey_calls (trace Demo.fresh)
    ++ [(Demo.bearer "Bearer abc123", {| key := "abc123" |});
        (Demo.bearer "Bearer abc123", {| key := "abc123" |})] ∧
  service (rootKeyAuth Demo.verifyKey (Demo.bearer "Bearer abc123")
             (rootKeyAuth Demo.verifyKey (Demo.bearer "Bearer abc123")
                Demo.fresh).2).2
  = 2.
Proof.
  apply (rootKeyAuth_no_cache _ _ Demo.verifyKey
           (Demo.bearer "Bearer abc123") (Demo.bearer "Bearer abc123")
           Demo.fresh "abc123" "abc123").
  - reflexivity.
  - discriminate.
  - reflexivity.
  - discriminate.
Defined.

Lemma rootKeyAuth_scheme_optional_witness :
  authorization (Demo.bearer "abc123")
  = authorization (Demo.bearer "Bearer abc123") ∧
  (rootKeyAuth Demo.verifyKey (Demo.bearer "abc123") Demo.fresh).1
  = (rootKeyAuth Demo.verifyKey (Demo.bearer "Bearer abc123")
       {| service := 3; trace := [] |}).1.
Proof.
  apply (rootKeyAuth_scheme_optional _ _ Demo.verifyKey
           (Demo.bearer "abc123") (Demo.bearer "Bearer abc123")
           Demo.fresh {| service := 3; trace := [] |} "abc123").
  - reflexivity.
  - reflexivity.
  - apply StringIndexOf_None. reflexivity.
  - reflexivity.
Defined.

(** ** The header collection at work *)

Example header_name_and_padding :
  header (req (Demo.get "/v1/keys.createKey"
                 [("Authorization", "  Bearer abc123 ")])) "authorization"
  = Some "Bearer abc123".
Proof. reflexivity. Qed.

Example header_repeated :
  header (req (Demo.get "/v1/keys.createKey"
                 [("authorization", "Bearer a"); ("accept", "*/*");
                  ("AUTHORIZATION", "Bearer b")])) "authorization"
  = Some "Bearer a, Bearer b".
Proof. reflexivity. Qed.

Example header_scheme_alone :
  header (req (Demo.bearer "Bearer ")) "authorization" = Some "Bearer" ∧
  verifyKey_calls
    (trace (rootKeyAuth Demo.verifyKey (Demo.bearer "Bearer ") Demo.fresh).2)
  = [(Demo.bearer "Bearer ", {| key := "Bearer" |})].
Proof. split; reflexivity. Qed.
